(** * doc/thirdparty/doxygen/dedup_index.py

    A shallow embedding of the build-time script that runs the index
    stylesheet over doxygen's [index.xml], and the properties its
    specification states about it.

    The script is glue around two collaborators: the file system and the
    lxml library.  The file system is a finite map from paths to the text
    of the files, with a set of paths that cannot be opened for writing;
    text is written as it is (the encoding and the line-end translation
    of Python's text mode are not modelled).  lxml is an interface
    ([Lxml]) whose operations are taken as the script calls them: each
    either raises or returns, as a function of its arguments.

    A statement of the script is a function from the world to an outcome
    and the world it leaves; a ghost trace records the calls that reach
    outside the script. *)

From Stdlib Require Import Ascii.
From stdpp Require Import gmap strings list.

(** ** Exceptions

    The exception classes the calls of the script can raise: [OSError] by
    [ET.parse] and [open] on a path that cannot be read or written, the
    others by lxml. *)
Inductive exn : Type :=
| OSError (filename : string)
| XMLSyntaxError (msg : string)
| XSLTParseError (msg : string)
| XSLTApplyError (msg : string)
| XSLTSaveError (msg : string).

#[global] Instance exn_eq_dec : EqDecision exn.
Proof. solve_decision. Defined.

(** ** The lxml interface

    [import lxml.etree as ET].  The script uses four operations of it:
    parsing the text of a file, [ET.XSLT(tree)], calling the compiled
    transform on a document, and [str(result)] (through [print]).  Each of
    them either raises or returns. *)
Class Lxml : Type := {
  ElementTree : Type;
  XSLT : Type;
  XSLTResultTree : Type;
  etree_fromstring : string → exn + ElementTree;
  etree_XSLT : ElementTree → exn + XSLT;
  XSLT_call : XSLT → ElementTree → exn + XSLTResultTree;
  result_str : XSLTResultTree → exn + string
}.

(** ** The world the script runs in *)

(** The calls of the script that reach outside of it, in the order they
    are made: the ghost [trace] of a run records them. *)
Inductive event : Type :=
| EvParse (source : string)
| EvXSLT
| EvTransform
| EvOpen (file : string)
| EvPrintTo (file : string)
| EvPrint (line : string).

#[global] Instance event_eq_dec : EqDecision event.
Proof. solve_decision. Defined.

Record World : Type := mkWorld {
  files : gmap string string;
  unwritable : gset string;
  stdout : string;
  trace : list event
}.

Definition set_files (f : gmap string string → gmap string string) (w : World) : World :=
  mkWorld (f (files w)) (unwritable w) (stdout w) (trace w).

Definition set_stdout (f : string → string) (w : World) : World :=
  mkWorld (files w) (unwritable w) (f (stdout w)) (trace w).

Definition set_trace (f : list event → list event) (w : World) : World :=
  mkWorld (files w) (unwritable w) (stdout w) (f (trace w)).

(** ** Statements: state passing with exceptions

    A statement takes the world and either raises ([inl]) or returns a
    value ([inr]), with the world it leaves behind.  No statement of the
    script catches an exception, so sequencing is the only combinator. *)
Definition M (A : Type) : Type := World → (exn + A) * World.

#[global] Instance M_ret : MRet M := λ A a w, (inr a, w).

#[global] Instance M_bind : MBind M := λ A B k m w,
  match m w with
  | (inl e, w') => (inl e, w')
  | (inr a, w') => k a w'
  end.

#[global] Instance M_throw : MThrow exn M := λ A e w, (inl e, w).

Definition lift {A : Type} (r : exn + A) : M A :=
  match r with
  | inl e => mthrow e
  | inr a => mret a
  end.

Definition log (ev : event) : M unit :=
  λ w, (inr tt, set_trace (λ t, t ++ [ev]) w).

Definition newline : string := String "010"%char EmptyString.

Section Script.
Context {L : Lxml}.

(** The text of the file at [source], as a reader of the path gets it. *)
Definition read_text (source : string) : M string :=
  λ w, match files w !! source with
       | None => (inl (OSError source), w)
       | Some text => (inr text, w)
       end.

(** [ET.parse(source)]: reads the file at [source] and parses its text. *)
Definition ET_parse (source : string) : M ElementTree :=
  log (EvParse source);;
  text ← read_text source;
  lift (etree_fromstring text).

(** [ET.XSLT(xslt)] *)
Definition ET_XSLT (xslt : ElementTree) : M XSLT :=
  log EvXSLT;; lift (etree_XSLT xslt).

(** [transform(doc)] *)
Definition call (transform : XSLT) (doc : ElementTree) : M XSLTResultTree :=
  log EvTransform;; lift (XSLT_call transform doc).

(** Opening a path for writing raises when the path cannot be written,
    and truncates the file otherwise. *)
Definition truncate (file : string) : M string :=
  λ w, if decide (file ∈ unwritable w)
       then (inl (OSError file), w)
       else (inr file, set_files <[file := EmptyString]> w).

(** [open(file, 'w')].  The file object is its path: it is only ever
    appended to. *)
Definition open_w (file : string) : M string :=
  log (EvOpen file);; truncate file.

(** [f.write(data)] on a file opened for writing. *)
Definition write (f : string) (data : string) : M unit :=
  λ w, (inr tt, set_files <[f := default EmptyString (files w !! f) +:+ data]> w).

(** [print(obj, file=f)]: writes [str(obj)], then the line end. *)
Definition print_to (obj : XSLTResultTree) (f : string) : M unit :=
  log (EvPrintTo f);;
  s ← lift (result_str obj);
  write f s;;
  write f newline.

(** [with open(file, 'w') as f: body].  Leaving the block closes [f] on
    both exits and lets an exception of the body through; the model
    writes through, so closing changes nothing. *)
Definition with_open_w {A : Type} (file : string) (body : string → M A) : M A :=
  f ← open_w file;
  body f.

(** [print(line)] on standard output. *)
Definition print (line : string) : M unit :=
  log (EvPrint line);;
  ((λ w, (inr tt, set_stdout (λ out, out +:+ line +:+ newline) w)) : M unit).

(** [def xsl_transform(inDoc, xslFile, outDoc)] *)
Definition xsl_transform (inDoc xslFile outDoc : string) : M unit :=
  doc ← ET_parse inDoc;
  xslt ← ET_parse xslFile;
  transform ← ET_XSLT xslt;
  transformed_doc ← call transform doc;
  with_open_w outDoc (λ f, print_to transformed_doc f);;
  mret tt.

Section Driver.
(** The two names the build system substitutes into the script text
    ([@DOXYGEN_OUTPUT_DIRECTORY@], [@PROJECT_DOC_DIR@]). *)
Variables DOXYGEN_OUTPUT_DIRECTORY PROJECT_DOC_DIR : string.

(** [def doxy_deduplicate_index()] *)
Definition doxy_deduplicate_index : M unit :=
  xsl_transform
    (DOXYGEN_OUTPUT_DIRECTORY +:+ "/xml/index.xml")
    (PROJECT_DOC_DIR +:+ "/thirdparty/doxygen/dedup_index.xsl")
    (DOXYGEN_OUTPUT_DIRECTORY +:+ "/xml/index.xml");;
  print "Removed duplicated <compound> elements in index.xml".

(** The body of the module: after the two definitions, the call
    [doxy_deduplicate_index()]. *)
Definition main : M unit := doxy_deduplicate_index.

End Driver.
End Script.

(** ** The stylesheet and the documents it is run on *)

(** Modelled from the spec: the stylesheet [dedup_index.xsl] and the index
    documents it is run on, which the script names and which are not
    among the sources.  An index is a root element [index] whose children
    are empty [compound] elements carrying a [refid]; the stylesheet keeps
    the first [compound] of every [refid]; lxml reads and writes such
    documents as the end-to-end scenario spells them. *)
Module DedupIndex.

Definition dquote : ascii := "034"%char.

(** The rest of [s] after the prefix [p], when [s] starts with [p]. *)
Fixpoint strip_prefix (p s : string) : option string :=
  match p, s with
  | EmptyString, _ => Some s
  | String a p', String b s' =>
      if decide (a = b) then strip_prefix p' s' else None
  | String _ _, EmptyString => None
  end.

(** The characters an attribute value cannot hold as they are: the quote
    that ends it, and the two that start markup and references. *)
Definition plain_char (c : ascii) : bool :=
  negb (bool_decide (c = dquote) || bool_decide (c = "<"%char) || bool_decide (c = "&"%char)).

Fixpoint plain (s : string) : bool :=
  match s with
  | EmptyString => true
  | String c s' => plain_char c && plain s'
  end.

(** An attribute value up to its closing quote, and the text after it. *)
Fixpoint attr_value (s : string) : option (string * string) :=
  match s with
  | EmptyString => None
  | String c s' =>
      if decide (c = dquote) then Some (EmptyString, s')
      else if plain_char c then
        match attr_value s' with
        | Some (v, rest) => Some (String c v, rest)
        | None => None
        end
      else None
  end.

Definition compound_start : string := "<compound refid=" +:+ String dquote EmptyString.
Definition compound_end : string := String dquote "/>".

(** The [compound] elements at the start of [s], and the text after the
    last of them.  [fuel] bounds the number of elements read. *)
Fixpoint parse_compounds (fuel : nat) (s : string) : option (list string * string) :=
  match strip_prefix compound_start s with
  | None => Some ([], s)
  | Some s1 =>
      match fuel with
      | O => None
      | S fuel' =>
          match attr_value s1 with
          | None => None
          | Some (refid, s2) =>
              match strip_prefix "/>" s2 with
              | None => None
              | Some s3 =>
                  match parse_compounds fuel' s3 with
                  | None => None
                  | Some (refids, rest) => Some (refid :: refids, rest)
                  end
              end
          end
      end
  end.

(** White space is all that may follow the root element. *)
Fixpoint blank (s : string) : bool :=
  match s with
  | EmptyString => true
  | String c s' =>
      (bool_decide (c = " "%char) || bool_decide (c = "010"%char)
       || bool_decide (c = "013"%char) || bool_decide (c = "009"%char))
      && blank s'
  end.

(** Modelled from the spec: how lxml reads an index document, which the
    script leaves to the library.  The text is the root element [index]
    with its [compound] children, as the end-to-end scenario writes it. *)
Definition parse_index (text : string) : option (list string) :=
  match strip_prefix "<index>" text with
  | None => None
  | Some s1 =>
      match parse_compounds (String.length s1) s1 with
      | None => None
      | Some (refids, s2) =>
          match strip_prefix "</index>" s2 with
          | None => None
          | Some s3 => if blank s3 then Some refids else None
          end
      end
  end.

Definition write_compound (refid : string) : string :=
  compound_start +:+ refid +:+ compound_end.

Fixpoint write_compounds (refids : list string) : string :=
  match refids with
  | [] => EmptyString
  | refid :: refids' => write_compound refid +:+ write_compounds refids'
  end.

(** Modelled from the spec: how lxml writes an index document. *)
Definition write_index (refids : list string) : string :=
  "<index>" +:+ write_compounds refids +:+ "</index>".

(** Modelled from the spec: the rule of [dedup_index.xsl], which is not
    among the sources: walking the [compound] elements in document order,
    an element is kept when no earlier element has its [refid]. *)
Fixpoint keep_first_from (seen : list string) (refids : list string) : list string :=
  match refids with
  | [] => []
  | refid :: refids' =>
      if decide (refid ∈ seen) then keep_first_from seen refids'
      else refid :: keep_first_from (refid :: seen) refids'
  end.

Definition keep_first (refids : list string) : list string :=
  keep_first_from [] refids.

(** The documents of the model: an index, or the stylesheet itself. *)
Inductive tree : Type :=
| Index (refids : list string)
| Stylesheet.

(** The one transform of the model. *)
Inductive xslt : Type :=
| KeepFirst.

Section Model.
(** The text of [dedup_index.xsl]. *)
Variable dedup_index_xsl : string.

Definition fromstring (text : string) : exn + tree :=
  if decide (text = dedup_index_xsl) then inr Stylesheet
  else match parse_index text with
       | Some refids => inr (Index refids)
       | None => inl (XMLSyntaxError text)
       end.

(** Only the stylesheet compiles; an index is well-formed XML that is no
    stylesheet. *)
Definition compile (t : tree) : exn + xslt :=
  match t with
  | Stylesheet => inr KeepFirst
  | Index _ => inl (XSLTParseError "cannot parse stylesheet")
  end.

Definition apply (transform : xslt) (doc : tree) : exn + tree :=
  match transform, doc with
  | KeepFirst, Index refids => inr (Index (keep_first refids))
  | KeepFirst, Stylesheet => inr Stylesheet
  end.

Definition tostring (result : tree) : exn + string :=
  match result with
  | Index refids => inr (write_index refids)
  | Stylesheet => inr dedup_index_xsl
  end.

(** Modelled from the spec: lxml on the documents above. *)
Definition lxml : Lxml :=
  {| ElementTree := tree;
     XSLT := xslt;
     XSLTResultTree := tree;
     etree_fromstring := fromstring;
     etree_XSLT := compile;
     XSLT_call := apply;
     result_str := tostring |}.

End Model.

(** The end-to-end scenario of the specification. *)
Definition scenario_input : string :=
  "<index>" +:+ write_compound "A" +:+ write_compound "A" +:+ write_compound "B" +:+ "</index>".

Definition scenario_output : string :=
  "<index>" +:+ write_compound "A" +:+ write_compound "B" +:+ "</index>".

(** A text for the stylesheet file, and worlds to run the script in. *)
Definition sample_xsl : string := "<xsl:stylesheet/>".

Definition scenario_world : World :=
  mkWorld {[ "index.xml" := scenario_input; "dedup_index.xsl" := sample_xsl ]} ∅ EmptyString [].

(** The input is cut short: its root element is never closed. *)
Definition malformed_world : World :=
  mkWorld {[ "index.xml" := "<index>"; "dedup_index.xsl" := sample_xsl;
             "out.xml" := "kept" ]} ∅ EmptyString [].

(** The same two files among other things: another file, earlier output. *)
Definition other_world : World :=
  mkWorld (<["notes.txt" := "unrelated"]> (files scenario_world)) ∅
    "earlier output" [EvPrint "earlier output"].

(** The files where the driver looks for them, for the substitutions
    [build] and [doc]. *)
Definition build_world : World :=
  mkWorld {[ "build/xml/index.xml" := scenario_input;
             "doc/thirdparty/doxygen/dedup_index.xsl" := sample_xsl ]} ∅ EmptyString [].

(** The same places with an index that is cut short. *)
Definition broken_build_world : World :=
  mkWorld {[ "build/xml/index.xml" := "<index>";
             "doc/thirdparty/doxygen/dedup_index.xsl" := sample_xsl ]} ∅ EmptyString [].

End DedupIndex.

(** ** Other libraries and worlds to run the script in *)

(** An lxml whose transform results have no string: [str] raises on every
    one of them. *)
Definition unprintable (L : Lxml) : Lxml :=
  {| ElementTree := @ElementTree L;
     XSLT := @XSLT L;
     XSLTResultTree := @XSLTResultTree L;
     etree_fromstring := @etree_fromstring L;
     etree_XSLT := @etree_XSLT L;
     XSLT_call := @XSLT_call L;
     result_str := λ _, inl (XSLTSaveError "cannot save result") |}.

(** The files of the scenario, with an output path that cannot be
    written. *)
Definition locked_world : World :=
  mkWorld (files DedupIndex.scenario_world) {[ "out.xml" ]} EmptyString [].

(** Nothing at all: no index, no stylesheet, and an output path that
    cannot be written. *)
Definition bare_world : World :=
  mkWorld ∅ {[ "out.xml" ]} EmptyString [].

(** ** Vocabulary of the specification *)

(** The paths the driver passes on and the line it prints, for the
    substitutions [out] of [@DOXYGEN_OUTPUT_DIRECTORY@] and [doc] of
    [@PROJECT_DOC_DIR@]. *)
Definition index_xml (out : string) : string := out +:+ "/xml/index.xml".

Definition stylesheet_path (doc : string) : string :=
  doc +:+ "/thirdparty/doxygen/dedup_index.xsl".

Definition notice : string := "Removed duplicated <compound> elements in index.xml".

Section Vocabulary.
Context {L : Lxml}.

(** The result of applying the stylesheet to the input document, from the
    texts of the two files: both are parsed, the stylesheet is compiled,
    and the transform is run on the input. *)
Definition apply_stylesheet (input stylesheet : string) : exn + XSLTResultTree :=
  match etree_fromstring input with
  | inl e => inl e
  | inr doc =>
      match etree_fromstring stylesheet with
      | inl e => inl e
      | inr xslt =>
          match etree_XSLT xslt with
          | inl e => inl e
          | inr transform => XSLT_call transform doc
          end
      end
  end.

(** A path names a malformed document when its text does not parse. *)
Definition malformed (w : World) (path : string) : Prop :=
  ∃ text e, files w !! path = Some text ∧ etree_fromstring text = inl e.

(** The steps of the control flow, as the calls that carry them out. *)
Definition control_flow (inDoc xslFile outDoc notice : string) : list event :=
  [EvParse inDoc; EvParse xslFile; EvXSLT; EvTransform;
   EvOpen outDoc; EvPrintTo outDoc; EvPrint notice].

(** The error taxonomy: [raised w inDoc xslFile outDoc n e] when, in the
    world [w], the [n]-th call made by [xsl_transform inDoc xslFile outDoc]
    raises [e], the calls before it having returned. *)
Inductive raised (w : World) (inDoc xslFile outDoc : string) : nat → exn → Prop :=
| raised_read_input :
    files w !! inDoc = None →
    raised w inDoc xslFile outDoc 1 (OSError inDoc)
| raised_parse_input text e :
    files w !! inDoc = Some text →
    etree_fromstring text = inl e →
    raised w inDoc xslFile outDoc 1 e
| raised_read_stylesheet text doc :
    files w !! inDoc = Some text →
    etree_fromstring text = inr doc →
    files w !! xslFile = None →
    raised w inDoc xslFile outDoc 2 (OSError xslFile)
| raised_parse_stylesheet text doc xtext e :
    files w !! inDoc = Some text →
    etree_fromstring text = inr doc →
    files w !! xslFile = Some xtext →
    etree_fromstring xtext = inl e →
    raised w inDoc xslFile outDoc 2 e
| raised_compile text doc xtext xslt e :
    files w !! inDoc = Some text →
    etree_fromstring text = inr doc →
    files w !! xslFile = Some xtext →
    etree_fromstring xtext = inr xslt →
    etree_XSLT xslt = inl e →
    raised w inDoc xslFile outDoc 3 e
| raised_transform text doc xtext xslt transform e :
    files w !! inDoc = Some text →
    etree_fromstring text = inr doc →
    files w !! xslFile = Some xtext →
    etree_fromstring xtext = inr xslt →
    etree_XSLT xslt = inr transform →
    XSLT_call transform doc = inl e →
    raised w inDoc xslFile outDoc 4 e
| raised_open text xtext result :
    files w !! inDoc = Some text →
    files w !! xslFile = Some xtext →
    apply_stylesheet text xtext = inr result →
    outDoc ∈ unwritable w →
    raised w inDoc xslFile outDoc 5 (OSError outDoc)
| raised_str text xtext result e :
    files w !! inDoc = Some text →
    files w !! xslFile = Some xtext →
    apply_stylesheet text xtext = inr result →
    outDoc ∉ unwritable w →
    result_str result = inl e →
    raised w inDoc xslFile outDoc 6 e.

(** The calls of [xsl_transform], in the order of its statements. *)
Definition calls (inDoc xslFile outDoc : string) : list event :=
  [EvParse inDoc; EvParse xslFile; EvXSLT; EvTransform;
   EvOpen outDoc; EvPrintTo outDoc].

(** The world a run leaves behind when it returns, [s] being the string
    of the transform result. *)
Definition written (w : World) (inDoc xslFile outDoc s : string) : World :=
  mkWorld (<[outDoc := s +:+ newline]> (files w)) (unwritable w) (stdout w)
    (trace w ++ calls inDoc xslFile outDoc).

(** The world a run leaves behind when its [n]-th call raises: the file
    at [outDoc] is empty once it has been opened. *)
Definition aborted (w : World) (inDoc xslFile outDoc : string) (n : nat) : World :=
  mkWorld (if decide (n = 6) then <[outDoc := EmptyString]> (files w) else files w)
    (unwritable w) (stdout w)
    (trace w ++ take n (calls inDoc xslFile outDoc)).

End Vocabulary.

(** * Properties *)

(** Unfolds the statements of the script down to the world they act on. *)
Ltac run_script :=
  unfold xsl_transform, with_open_w, print_to, open_w, call, ET_XSLT,
    ET_parse, print, write, truncate, read_text, log, lift;
  unfold mbind, M_bind, mret, M_ret, mthrow, M_throw;
  cbn [files unwritable stdout trace set_files set_stdout set_trace].

Section Transform.
Context {L : Lxml}.
Implicit Types (w : World) (inDoc xslFile outDoc : string).

Lemma apply_stylesheet_inr text xtext result :
  apply_stylesheet text xtext = inr result →
  ∃ doc xslt transform,
    etree_fromstring text = inr doc ∧ etree_fromstring xtext = inr xslt ∧
    etree_XSLT xslt = inr transform ∧ XSLT_call transform doc = inr result.
Proof.
  unfold apply_stylesheet. intros Happly.
  destruct (etree_fromstring text) as [?|doc]; [done|].
  destruct (etree_fromstring xtext) as [?|xslt]; [done|].
  destruct (etree_XSLT xslt) as [?|transform] eqn:Hc; [done|].
  exists doc, xslt, transform. by repeat split.
Qed.

Lemma xsl_transform_returns w inDoc xslFile outDoc text xtext result s :
  files w !! inDoc = Some text →
  files w !! xslFile = Some xtext →
  apply_stylesheet text xtext = inr result →
  result_str result = inr s →
  outDoc ∉ unwritable w →
  xsl_transform inDoc xslFile outDoc w = (inr tt, written w inDoc xslFile outDoc s).
Proof.
  intros Hin Hxsl Happly Hstr Hout. unfold apply_stylesheet in Happly.
  run_script. rewrite Hin.
  destruct (etree_fromstring text) as [e|doc]; [done|].
  cbn. rewrite Hxsl.
  destruct (etree_fromstring xtext) as [e|xslt]; [done|].
  cbn.
  destruct (etree_XSLT xslt) as [e|transform]; [done|].
  cbn. rewrite Happly. cbn.
  rewrite decide_False by done. cbn. rewrite Hstr. cbn.
  unfold written, calls, set_files, set_trace. cbn.
  rewrite !lookup_insert_eq. cbn. rewrite !insert_insert_eq.
  by rewrite <- !app_assoc.
Qed.

Lemma xsl_transform_raises w inDoc xslFile outDoc n e :
  raised w inDoc xslFile outDoc n e →
  xsl_transform inDoc xslFile outDoc w = (inl e, aborted w inDoc xslFile outDoc n).
Proof.
  unfold aborted, calls.
  destruct 1 as [Hin|text e Hin Hdoc|text doc Hin Hdoc Hxsl
    |text doc xtext e Hin Hdoc Hxsl Hx|text doc xtext xslt e Hin Hdoc Hxsl Hx Hc
    |text doc xtext xslt transform e Hin Hdoc Hxsl Hx Hc Ht
    |text xtext result Hin Hxsl Happly Hout
    |text xtext result e Hin Hxsl Happly Hout Hstr];
    try (unfold apply_stylesheet in Happly;
         destruct (etree_fromstring text) as [?|doc] eqn:Hdoc; [done|];
         destruct (etree_fromstring xtext) as [?|xslt] eqn:Hx; [done|];
         destruct (etree_XSLT xslt) as [?|transform] eqn:Hc; [done|]);
    run_script; rewrite Hin; cbn;
    rewrite ?Hdoc; cbn; rewrite ?Hxsl; cbn; rewrite ?Hx; cbn;
    rewrite ?Hc; cbn; rewrite ?Ht, ?Happly; cbn;
    rewrite ?decide_True, ?decide_False by done; cbn; rewrite ?Hstr; cbn;
    unfold set_files, set_trace; cbn; by rewrite <- ?app_assoc.
Qed.

(** Every run either returns or has a call that raises. *)
Lemma xsl_transform_cases w inDoc xslFile outDoc :
  (∃ text xtext result s,
      files w !! inDoc = Some text ∧ files w !! xslFile = Some xtext ∧
      apply_stylesheet text xtext = inr result ∧ result_str result = inr s ∧
      outDoc ∉ unwritable w) ∨
  (∃ n e, raised w inDoc xslFile outDoc n e).
Proof.
  destruct (files w !! inDoc) as [text|] eqn:Hin;
    [|right; eauto using raised].
  destruct (etree_fromstring text) as [e|doc] eqn:Hdoc;
    [right; eauto using raised|].
  destruct (files w !! xslFile) as [xtext|] eqn:Hxsl;
    [|right; eauto using raised].
  destruct (etree_fromstring xtext) as [e|xslt] eqn:Hx;
    [right; eauto using raised|].
  destruct (etree_XSLT xslt) as [e|transform] eqn:Hc;
    [right; eauto using raised|].
  destruct (XSLT_call transform doc) as [e|result] eqn:Ht;
    [right; eauto using raised|].
  assert (apply_stylesheet text xtext = inr result) as Happly
    by (unfold apply_stylesheet; by rewrite Hdoc, Hx, Hc).
  destruct (decide (outDoc ∈ unwritable w)) as [Hout|Hout];
    [right; eauto using raised|].
  destruct (result_str result) as [e|s] eqn:Hstr;
    [right; eauto using raised|].
  left. by exists text, xtext, result, s.
Qed.

Lemma xsl_transform_inr w inDoc xslFile outDoc u w' :
  xsl_transform inDoc xslFile outDoc w = (inr u, w') →
  ∃ text xtext result s,
    files w !! inDoc = Some text ∧ files w !! xslFile = Some xtext ∧
    apply_stylesheet text xtext = inr result ∧ result_str result = inr s ∧
    (outDoc ∉ unwritable w) ∧ w' = written w inDoc xslFile outDoc s.
Proof.
  intros Hrun.
  destruct (xsl_transform_cases w inDoc xslFile outDoc)
    as [(text & xtext & result & s & Hin & Hxsl & Happly & Hstr & Hout)|(n & e & Hr)].
  - rewrite (xsl_transform_returns _ _ _ _ _ _ _ _ Hin Hxsl Happly Hstr Hout) in Hrun.
    exists text, xtext, result, s. by simplify_eq.
  - rewrite (xsl_transform_raises _ _ _ _ _ _ Hr) in Hrun. done.
Qed.

Lemma xsl_transform_inl w inDoc xslFile outDoc e w' :
  xsl_transform inDoc xslFile outDoc w = (inl e, w') →
  ∃ n, raised w inDoc xslFile outDoc n e ∧ w' = aborted w inDoc xslFile outDoc n.
Proof.
  intros Hrun.
  destruct (xsl_transform_cases w inDoc xslFile outDoc)
    as [(text & xtext & result & s & Hin & Hxsl & Happly & Hstr & Hout)|(n & e' & Hr)].
  - rewrite (xsl_transform_returns _ _ _ _ _ _ _ _ Hin Hxsl Happly Hstr Hout) in Hrun.
    done.
  - rewrite (xsl_transform_raises _ _ _ _ _ _ Hr) in Hrun.
    exists n. by simplify_eq.
Qed.

End Transform.

Section Strings.

Lemma append_nil (t : string) : EmptyString +:+ t = t.
Proof. reflexivity. Qed.

Lemma append_cons (c : ascii) (s t : string) :
  String c s +:+ t = String c (s +:+ t).
Proof. reflexivity. Qed.

Lemma length_append (s t : string) :
  String.length (s +:+ t) = String.length s + String.length t.
Proof.
  induction s as [|c s IH]; [reflexivity|].
  rewrite append_cons. simpl. congruence.
Qed.

Lemma append_assoc (s t u : string) : (s +:+ t) +:+ u = s +:+ t +:+ u.
Proof.
  induction s as [|c s IH]; [reflexivity|].
  rewrite !append_cons. congruence.
Qed.

Lemma get_append_end (s : string) (c : ascii) :
  String.get (String.length s) (s +:+ String c EmptyString) = Some c.
Proof.
  induction s as [|a s IH]; [reflexivity|].
  rewrite append_cons. simpl. congruence.
Qed.

Lemma append_newline_ne (s : string) : s +:+ newline ≠ s.
Proof.
  intros Heq. apply (f_equal String.length) in Heq. 
  rewrite length_append in Heq. cbn in Heq. lia.
Qed.

End Strings.

Section Claims.
Context {L : Lxml}.
Implicit Types (w : World) (inDoc xslFile outDoc : string).

(** C1, as amended.  When the two files hold texts that parse and the
    stylesheet applies to the input, a call that returns has replaced the
    file at [outDoc] by the string of the transform result followed by a
    line end, and has left every other file as it was; its value is
    [None].  The call does return when the result has a string and the
    path can be written. *)
Theorem xsl_transform_writes_result_line w inDoc xslFile outDoc text xtext result :
  files w !! inDoc = Some text →
  files w !! xslFile = Some xtext →
  apply_stylesheet text xtext = inr result →
  (∀ u w', xsl_transform inDoc xslFile outDoc w = (inr u, w') →
     u = tt ∧
     ∃ s, result_str result = inr s ∧
          files w' = <[outDoc := s +:+ newline]> (files w)) ∧
  (∀ s, result_str result = inr s → outDoc ∉ unwritable w →
     ∃ w', xsl_transform inDoc xslFile outDoc w = (inr tt, w') ∧
           files w' !! outDoc = Some (s +:+ newline)).
Proof.
  intros Hin Hxsl Happly. split.
  - intros u w' Hrun. split; [by destruct u|].
    apply xsl_transform_inr in Hrun
      as (text' & xtext' & result' & s & Hin' & Hxsl' & Happly' & Hstr & _ & ->).
    assert (text' = text) as -> by congruence.
    assert (xtext' = xtext) as -> by congruence.
    assert (result' = result) as -> by congruence.
    by exists s.
  - intros s Hstr Hout. eexists. split.
    + by eapply xsl_transform_returns.
    + cbn. apply lookup_insert_eq.
Qed.

(** C9.  A call that returns has written the string of the transform
    result and one line end after it: the file is one character longer
    than that string, and its last character is the line end. *)
Theorem print_appends_one_newline w inDoc xslFile outDoc u w' :
  xsl_transform inDoc xslFile outDoc w = (inr u, w') →
  ∃ text xtext result s content,
    files w !! inDoc = Some text ∧
    files w !! xslFile = Some xtext ∧
    apply_stylesheet text xtext = inr result ∧
    result_str result = inr s ∧
    files w' !! outDoc = Some content ∧
    content = s +:+ newline ∧
    String.length content = S (String.length s) ∧
    String.get (String.length s) content = Some "010"%char.
Proof.
  intros Hrun.
  apply xsl_transform_inr in Hrun
    as (text & xtext & result & s & Hin & Hxsl & Happly & Hstr & _ & ->).
  exists text, xtext, result, s, (s +:+ newline).
  repeat split; try done.
  - cbn. apply lookup_insert_eq.
  - rewrite length_append. cbn. lia.
  - apply get_append_end.
Qed.

(** C2.  When the input document or the stylesheet document is malformed,
    the call raises, no file has changed, and the output path was neither
    opened nor printed to. *)
Theorem malformed_document_leaves_output_untouched w inDoc xslFile outDoc :
  malformed w inDoc ∨ malformed w xslFile →
  ∃ e w' t,
    xsl_transform inDoc xslFile outDoc w = (inl e, w') ∧
    files w' = files w ∧
    trace w' = trace w ++ t ∧
    (EvOpen outDoc ∉ t) ∧ (EvPrintTo outDoc ∉ t).
Proof.
  intros Hmal.
  destruct (xsl_transform_cases w inDoc xslFile outDoc)
    as [(text & xtext & result & s & Hin & Hxsl & Happly & _)|(n & e & Hr)].
  - exfalso.
    apply apply_stylesheet_inr in Happly
      as (doc & xslt & transform & Hdoc & Hx & Hc & Hcall).
    destruct Hmal as [(t & e & Ht & He)|(t & e & Ht & He)]; congruence.
  - exists e, (aborted w inDoc xslFile outDoc n), (take n (calls inDoc xslFile outDoc)).
    split; [by apply xsl_transform_raises|].
    assert (n = 1 ∨ n = 2) as Hn.
    { destruct Hmal as [(t & e' & Ht & He)|(t & e' & Ht & He)];
        destruct Hr as [Hin|text e Hin Hdoc|text doc Hin Hdoc Hxsl
          |text doc xtext e Hin Hdoc Hxsl Hx
          |text doc xtext xslt e Hin Hdoc Hxsl Hx Hc
          |text doc xtext xslt transform e Hin Hdoc Hxsl Hx Hc Hcall
          |text xtext result Hin Hxsl Happly Hout
          |text xtext result e Hin Hxsl Happly Hout Hstr];
        auto;
        try (apply apply_stylesheet_inr in Happly
               as (doc & xslt & transform & Hdoc & Hx & Hc & Hcall));
        congruence. }
    destruct Hn as [-> | ->]; cbn; repeat split; try done;
      rewrite !not_elem_of_cons; repeat split; try done; apply not_elem_of_nil.
Qed.

(** The driver is [xsl_transform] on its three paths, then the notice. *)
Lemma doxy_deduplicate_index_run D P w :
  doxy_deduplicate_index D P w =
  match xsl_transform (index_xml D) (stylesheet_path P) (index_xml D) w with
  | (inl e, w1) => (inl e, w1)
  | (inr _, w1) =>
      (inr tt, mkWorld (files w1) (unwritable w1)
                 (stdout w1 +:+ notice +:+ newline) (trace w1 ++ [EvPrint notice]))
  end.
Proof.
  unfold doxy_deduplicate_index, index_xml, stylesheet_path, notice.
  unfold mbind at 1. unfold M_bind.
  destruct (xsl_transform _ _ _ w) as [[e|[]] w1]; [done|].
  by run_script.
Qed.

(** C4.  A run of [xsl_transform] raises [e] exactly when one of its
    calls raises [e]: the exception of the call is the exception of the
    run, no call is made after it, and the driver passes the same
    exception on without printing its notice. *)
Theorem errors_propagate_unmodified w inDoc xslFile outDoc e w' :
  (xsl_transform inDoc xslFile outDoc w = (inl e, w') ↔
   ∃ n, raised w inDoc xslFile outDoc n e ∧
        w' = aborted w inDoc xslFile outDoc n) ∧
  (∀ D P,
     xsl_transform (index_xml D) (stylesheet_path P) (index_xml D) w = (inl e, w') ↔
     doxy_deduplicate_index D P w = (inl e, w')) ∧
  (∀ D P, doxy_deduplicate_index D P w = (inl e, w') → stdout w' = stdout w).
Proof.
  assert (∀ D P,
     xsl_transform (index_xml D) (stylesheet_path P) (index_xml D) w = (inl e, w') ↔
     doxy_deduplicate_index D P w = (inl e, w')) as Hdriver.
  { intros D P. rewrite doxy_deduplicate_index_run.
    destruct (xsl_transform _ _ _ w) as [[e1|[]] w1]; [done|].
    split; intros; simplify_eq. }
  split; [|split; [done|]].
  - split.
    + apply xsl_transform_inl.
    + intros (n & Hr & ->). by apply xsl_transform_raises.
  - intros D P Hrun. apply Hdriver, xsl_transform_inl in Hrun as (n & _ & ->).
    done.
Qed.

(** C5.  A run of the driver makes the calls of the control flow in their
    order, each at most once, and stops at the first that raises: its
    trace is an initial part of the sequence, the whole of it exactly when
    the run returns, and the notice is in it only when the output file
    has been written. *)
Theorem control_flow_is_linear D P w r w' :
  doxy_deduplicate_index D P w = (r, w') →
  ∃ t,
    trace w' = trace w ++ t ∧
    t `prefix_of` control_flow (index_xml D) (stylesheet_path P) (index_xml D) notice ∧
    (r = inr tt ↔
     t = control_flow (index_xml D) (stylesheet_path P) (index_xml D) notice) ∧
    (EvPrint notice ∈ t →
     r = inr tt ∧ ∃ s, files w' !! index_xml D = Some (s +:+ newline)).
Proof.
  rewrite doxy_deduplicate_index_run. intros Hrun.
  destruct (xsl_transform _ _ _ w) as [[e|[]] w1] eqn:Hx; simplify_eq.
  - apply xsl_transform_inl in Hx as (n & Hr & ->).
    exists (take n (calls (index_xml D) (stylesheet_path P) (index_xml D))).
    split; [done|].
    assert (EvPrint notice ∉ calls (index_xml D) (stylesheet_path P) (index_xml D)) as Hnot.
    { unfold calls. rewrite !not_elem_of_cons. repeat split; try done.
      apply not_elem_of_nil. }
    split; [|split; [split; [done|]|]].
    + change (control_flow ?a ?b ?c ?d) with (calls a b c ++ [EvPrint d]).
      apply prefix_app_r, prefix_take.
    + intros Heq. apply (f_equal length) in Heq.
      rewrite length_take in Heq. cbn in Heq. lia.
    + intros Hin. apply subseteq_take in Hin. done.
  - apply xsl_transform_inr in Hx
      as (text & xtext & result & s & Hin & Hxsl & Happly & Hstr & Hout & ->).
    exists (control_flow (index_xml D) (stylesheet_path P) (index_xml D) notice).
    cbn. split; [by rewrite <- app_assoc|].
    split; [done|]. split; [done|].
    intros _. split; [done|]. exists s. apply lookup_insert_eq.
Qed.

(** C7.  The driver takes no argument: it calls [xsl_transform] with the
    index path, the stylesheet path and the index path again, made from
    the two substituted names, and when that call returns it appends the
    one fixed line to standard output; when the call raises, nothing is
    printed. *)
Theorem driver_prints_fixed_notice D P w r w' :
  doxy_deduplicate_index D P w = (r, w') →
  (r = inr tt →
   stdout w' = stdout w +:+ notice +:+ newline ∧
   ∃ w1, xsl_transform (index_xml D) (stylesheet_path P) (index_xml D) w = (inr tt, w1) ∧
         files w' = files w1) ∧
  (∀ e, r = inl e →
   stdout w' = stdout w ∧
   xsl_transform (index_xml D) (stylesheet_path P) (index_xml D) w = (inl e, w')).
Proof.
  rewrite doxy_deduplicate_index_run. intros Hrun.
  destruct (xsl_transform _ _ _ w) as [[e|[]] w1] eqn:Hx; simplify_eq.
  - split; [done|]. intros e' [= <-].
    apply xsl_transform_inl in Hx as (n & _ & ->). done.
  - split; [|done]. intros _.
    apply xsl_transform_inr in Hx as Hx'.
    destruct Hx' as (text & xtext & result & s & _ & _ & _ & _ & _ & ->).
    split; [done|]. by eexists.
Qed.

(** C8.  The driver reads and writes the same path: a run that returns
    has parsed the file at the index path and replaced that same file by
    the result line; no other path has changed or appeared, so nothing
    keeps the text the file had. *)
Theorem driver_overwrites_its_input D P w w' :
  doxy_deduplicate_index D P w = (inr tt, w') →
  ∃ text xtext result s,
    files w !! index_xml D = Some text ∧
    files w !! stylesheet_path P = Some xtext ∧
    apply_stylesheet text xtext = inr result ∧
    result_str result = inr s ∧
    files w' = <[index_xml D := s +:+ newline]> (files w) ∧
    dom (files w') = dom (files w) ∧
    (∀ p, p ≠ index_xml D → files w' !! p = files w !! p) ∧
    trace w' = trace w ++
      control_flow (index_xml D) (stylesheet_path P) (index_xml D) notice.
Proof.
  rewrite doxy_deduplicate_index_run. intros Hrun.
  destruct (xsl_transform _ _ _ w) as [[e|[]] w1] eqn:Hx; simplify_eq.
  apply xsl_transform_inr in Hx
    as (text & xtext & result & s & Hin & Hxsl & Happly & Hstr & Hout & ->).
  exists text, xtext, result, s. cbn.
  repeat split; try done.
  - apply dom_insert_lookup_L. by eexists.
  - intros p Hp. by apply lookup_insert_ne.
  - by rewrite <- app_assoc.
Qed.

Lemma raised_ext w1 w2 inDoc xslFile outDoc n e :
  files w1 !! inDoc = files w2 !! inDoc →
  files w1 !! xslFile = files w2 !! xslFile →
  (outDoc ∈ unwritable w1 ↔ outDoc ∈ unwritable w2) →
  raised w1 inDoc xslFile outDoc n e → raised w2 inDoc xslFile outDoc n e.
Proof.
  intros Hin Hxsl Hout Hr.
  destruct Hr; rewrite ?Hin, ?Hxsl, ?Hout in *; eauto using raised.
Qed.

(** C10.  The file a run writes is a function of the texts at the input
    and stylesheet paths: two runs that find the same texts there and
    both return leave the same text at the output path, and when the
    output path can be written in both or in neither, the two runs end
    the same way.  (The operations of lxml are functions of their
    arguments in [Lxml].) *)
Theorem xsl_transform_deterministic w1 w2 inDoc xslFile outDoc :
  files w1 !! inDoc = files w2 !! inDoc →
  files w1 !! xslFile = files w2 !! xslFile →
  (∀ u1 u2 w1' w2',
     xsl_transform inDoc xslFile outDoc w1 = (inr u1, w1') →
     xsl_transform inDoc xslFile outDoc w2 = (inr u2, w2') →
     files w1' !! outDoc = files w2' !! outDoc) ∧
  ((outDoc ∈ unwritable w1 ↔ outDoc ∈ unwritable w2) →
   (xsl_transform inDoc xslFile outDoc w1).1 =
   (xsl_transform inDoc xslFile outDoc w2).1).
Proof.
  intros Hin Hxsl. split.
  - intros u1 u2 w1' w2' H1 H2.
    apply xsl_transform_inr in H1
      as (text & xtext & result & s & Hin1 & Hxsl1 & Happly1 & Hstr1 & _ & ->).
    apply xsl_transform_inr in H2
      as (text' & xtext' & result' & s' & Hin2 & Hxsl2 & Happly2 & Hstr2 & _ & ->).
    assert (text' = text) as -> by congruence.
    assert (xtext' = xtext) as -> by congruence.
    assert (result' = result) as -> by congruence.
    assert (s' = s) as -> by congruence.
    cbn. by rewrite !lookup_insert_eq.
  - intros Hout.
    destruct (xsl_transform_cases w1 inDoc xslFile outDoc)
      as [(text & xtext & result & s & Hin1 & Hxsl1 & Happly & Hstr & Hout1)|(n & e & Hr)].
    + rewrite (xsl_transform_returns w1 _ _ _ _ _ _ _ Hin1 Hxsl1 Happly Hstr Hout1).
      rewrite (xsl_transform_returns w2 _ _ _ text xtext result s);
        [done|congruence|congruence|done|done|by rewrite <- Hout].
    + rewrite (xsl_transform_raises _ _ _ _ _ _ Hr).
      by rewrite (xsl_transform_raises _ _ _ _ _ _
                    (raised_ext _ _ _ _ _ _ _ Hin Hxsl Hout Hr)).
Qed.

End Claims.

(** ** The stylesheet rule *)

Section KeepFirst.
Import DedupIndex.
Implicit Types (seen refids : list string) (refid : string).

Lemma elem_of_keep_first_from seen refids refid :
  refid ∈ keep_first_from seen refids ↔ refid ∈ refids ∧ refid ∉ seen.
Proof.
  revert seen. induction refids as [|r refids IH]; intros seen; simpl.
  - rewrite elem_of_nil. tauto.
  - destruct (decide (r ∈ seen)) as [Hr|Hr].
    + rewrite IH, elem_of_cons. split; [tauto|].
      intros [[->|?] ?]; tauto.
    + rewrite !elem_of_cons, IH, not_elem_of_cons. split.
      * intros [->|[? [? ?]]]; tauto.
      * intros [[->|?] ?]; [tauto|].
        destruct (decide (refid = r)); tauto.
Qed.

Lemma NoDup_keep_first_from seen refids : NoDup (keep_first_from seen refids).
Proof.
  revert seen. induction refids as [|r refids IH]; intros seen; simpl.
  - constructor.
  - destruct (decide (r ∈ seen)); [done|].
    constructor; [|done].
    rewrite elem_of_keep_first_from, not_elem_of_cons. tauto.
Qed.

Lemma keep_first_from_NoDup seen refids :
  NoDup refids → (∀ refid, refid ∈ refids → refid ∉ seen) →
  keep_first_from seen refids = refids.
Proof.
  intros Hnd. revert seen.
  induction Hnd as [|r refids Hr Hnd IH]; intros seen Hseen; simpl; [done|].
  rewrite decide_False by (apply Hseen; left).
  f_equal. apply IH. intros refid Hin.
  rewrite not_elem_of_cons. split.
  - intros ->. done.
  - apply Hseen. by right.
Qed.

Lemma elem_of_keep_first refids refid : refid ∈ keep_first refids ↔ refid ∈ refids.
Proof.
  unfold keep_first. rewrite elem_of_keep_first_from.
  split; [tauto|]. intros ?. split; [done|]. apply not_elem_of_nil.
Qed.

Lemma NoDup_keep_first refids : NoDup (keep_first refids).
Proof. apply NoDup_keep_first_from. Qed.

Lemma keep_first_idemp refids : keep_first (keep_first refids) = keep_first refids.
Proof.
  unfold keep_first at 1. apply keep_first_from_NoDup.
  - apply NoDup_keep_first.
  - intros. apply not_elem_of_nil.
Qed.

End KeepFirst.


(** ** Reading back what was written *)

Section IndexText.
Import DedupIndex.
Implicit Types (s rest tail : string) (refids : list string).

Lemma strip_prefix_append p s : strip_prefix p (p +:+ s) = Some s.
Proof.
  induction p as [|c p IH]; [reflexivity|].
  rewrite append_cons. simpl. by rewrite decide_True.
Qed.

Lemma plain_char_not_dquote c : plain_char c = true → c ≠ dquote.
Proof. intros Hc ->. discriminate Hc. Qed.

Lemma attr_value_write v rest :
  plain v = true → attr_value (v +:+ String dquote rest) = Some (v, rest).
Proof.
  induction v as [|c v IH]; intros Hv.
  - reflexivity.
  - simpl in Hv. apply andb_true_iff in Hv as [Hc Hv].
    rewrite append_cons. simpl.
    rewrite decide_False by by apply plain_char_not_dquote.
    by rewrite Hc, IH.
Qed.

Lemma attr_value_plain s v rest : attr_value s = Some (v, rest) → plain v = true.
Proof.
  revert v rest. induction s as [|c s IH]; intros v rest; simpl; [done|].
  destruct (decide (c = dquote)); [by intros [= <- _]|].
  destruct (plain_char c) eqn:Hc; [|done].
  destruct (attr_value s) as [[v' rest']|]; [|done].
  intros [= <- _]. simpl. rewrite Hc. by eapply IH.
Qed.

Lemma parse_compounds_plain fuel s refids rest :
  parse_compounds fuel s = Some (refids, rest) →
  Forall (λ v, plain v = true) refids.
Proof.
  revert s refids rest.
  induction fuel as [|fuel IH]; intros s refids rest; cbn [parse_compounds].
  - destruct (strip_prefix compound_start s); [done|].
    intros [= <- _]. constructor.
  - destruct (strip_prefix compound_start s) as [s1|];
      [|intros [= <- _]; constructor].
    destruct (attr_value s1) as [[v s2]|] eqn:Hv; [|done].
    destruct (strip_prefix "/>" s2) as [s3|]; [|done].
    destruct (parse_compounds fuel s3) as [[vs rest']|] eqn:Hrec; [|done].
    intros [= <- _]. constructor; [by eapply attr_value_plain|by eapply IH].
Qed.

Lemma write_compound_append v tail :
  write_compound v +:+ tail =
  compound_start +:+ v +:+ String dquote ("/>" +:+ tail).
Proof. unfold write_compound, compound_end. by rewrite !append_assoc. Qed.

Lemma parse_compounds_write refids rest fuel :
  Forall (λ v, plain v = true) refids →
  length refids ≤ fuel →
  strip_prefix compound_start rest = None →
  parse_compounds fuel (write_compounds refids +:+ rest) = Some (refids, rest).
Proof.
  intros Hplain. revert fuel.
  induction Hplain as [|v refids Hv Hplain IH]; intros fuel Hfuel Hrest.
  - change (write_compounds [] +:+ rest) with rest.
    destruct fuel; cbn [parse_compounds]; by rewrite Hrest.
  - destruct fuel as [|fuel]; [simpl in Hfuel; lia|].
    change (write_compounds (v :: refids)) with
      (write_compound v +:+ write_compounds refids).
    rewrite append_assoc, write_compound_append. cbn [parse_compounds].
    rewrite strip_prefix_append, (attr_value_write _ _ Hv), strip_prefix_append.
    rewrite IH; [done|simpl in Hfuel; lia|done].
Qed.

Lemma write_compounds_length refids :
  length refids ≤ String.length (write_compounds refids).
Proof.
  induction refids as [|v refids IH]; simpl; [lia|].
  unfold write_compound. rewrite !length_append.
  change (String.length compound_start) with 17. lia.
Qed.

(** An index that was written is read back as it was, whatever white
    space follows it. *)
Lemma parse_index_write refids tail :
  Forall (λ v, plain v = true) refids → blank tail = true →
  parse_index (write_index refids +:+ tail) = Some refids.
Proof.
  intros Hplain Htail. unfold parse_index, write_index.
  rewrite !append_assoc, strip_prefix_append.
  rewrite parse_compounds_write; [|done| |done].
  - by rewrite strip_prefix_append, Htail.
  - rewrite length_append. pose proof (write_compounds_length refids). lia.
Qed.

Lemma parse_index_plain text refids :
  parse_index text = Some refids → Forall (λ v, plain v = true) refids.
Proof.
  unfold parse_index.
  destruct (strip_prefix "<index>" text) as [s1|]; [|done].
  destruct (parse_compounds (String.length s1) s1) as [[vs s2]|] eqn:Hc; [|done].
  destruct (strip_prefix "</index>" s2) as [s3|]; [|done].
  destruct (blank s3); [|done].
  intros [= <-]. by eapply parse_compounds_plain.
Qed.

End IndexText.

(** ** The script on the stylesheet of the specification *)

Section Model.
Import DedupIndex.
Variable xsl : string.
Implicit Types (w : World) (inDoc xslFile outDoc : string).

Lemma fromstring_stylesheet : fromstring xsl xsl = inr Stylesheet.
Proof. unfold fromstring. by rewrite decide_True. Qed.

Lemma fromstring_index text refids :
  fromstring xsl text = inr (Index refids) →
  text ≠ xsl ∧ parse_index text = Some refids.
Proof.
  unfold fromstring. destruct (decide (text = xsl)); [done|].
  destruct (parse_index text); [|done]. by intros [= ->].
Qed.

Lemma fromstring_written refids :
  parse_index xsl = None →
  Forall (λ v, plain v = true) refids →
  fromstring xsl (write_index refids +:+ newline) = inr (Index refids).
Proof.
  intros Hxsl Hplain. unfold fromstring.
  pose proof (parse_index_write refids newline Hplain eq_refl) as Hparse.
  rewrite decide_False by congruence. by rewrite Hparse.
Qed.

Lemma model_run w inDoc xslFile outDoc text refids :
  files w !! inDoc = Some text →
  fromstring xsl text = inr (Index refids) →
  files w !! xslFile = Some xsl →
  outDoc ∉ unwritable w →
  xsl_transform (L := lxml xsl) inDoc xslFile outDoc w =
  (inr tt, written w inDoc xslFile outDoc (write_index (keep_first refids))).
Proof.
  intros Hin Hparse Hxsl Hout.
  apply (xsl_transform_returns (L := lxml xsl) w inDoc xslFile outDoc
           text xsl (Index (keep_first refids))); try done.
  unfold apply_stylesheet. cbn [etree_fromstring etree_XSLT XSLT_call lxml].
  by rewrite Hparse, fromstring_stylesheet.
Qed.

End Model.

Section ModelClaims.
Import DedupIndex.

(** C3.  On an input that reads as an index, with the stylesheet that
    keeps the first [compound] of every [refid], the call returns and
    the file it writes is an index in which every [refid] of the input
    stands exactly once; on the input of the end-to-end scenario the
    index written has the [compound] elements [A] and [B]. *)
Theorem stylesheet_keeps_each_refid_once :
  (∀ xsl w inDoc xslFile outDoc text refids,
     files w !! inDoc = Some text →
     fromstring xsl text = inr (Index refids) →
     files w !! xslFile = Some xsl →
     outDoc ∉ unwritable w →
     ∃ w' kept,
       xsl_transform (L := lxml xsl) inDoc xslFile outDoc w = (inr tt, w') ∧
       files w' !! outDoc = Some (write_index kept +:+ newline) ∧
       parse_index (write_index kept +:+ newline) = Some kept ∧
       kept = keep_first refids ∧
       NoDup kept ∧
       (∀ refid, refid ∈ kept ↔ refid ∈ refids)) ∧
  (∃ w',
     xsl_transform (L := lxml sample_xsl)
       "index.xml" "dedup_index.xsl" "index.xml" scenario_world = (inr tt, w') ∧
     parse_index scenario_input = Some ["A"; "A"; "B"] ∧
     files w' !! "index.xml" = Some (scenario_output +:+ newline) ∧
     parse_index (scenario_output +:+ newline) = Some ["A"; "B"]).
Proof.
  assert (∀ xsl w inDoc xslFile outDoc text refids,
     files w !! inDoc = Some text →
     fromstring xsl text = inr (Index refids) →
     files w !! xslFile = Some xsl →
     outDoc ∉ unwritable w →
     ∃ w' kept,
       xsl_transform (L := lxml xsl) inDoc xslFile outDoc w = (inr tt, w') ∧
       files w' !! outDoc = Some (write_index kept +:+ newline) ∧
       parse_index (write_index kept +:+ newline) = Some kept ∧
       kept = keep_first refids ∧
       NoDup kept ∧
       (∀ refid, refid ∈ kept ↔ refid ∈ refids)) as Hgeneral.
  { intros xsl w inDoc xslFile outDoc text refids Hin Hparse Hxsl Hout.
    exists (written w inDoc xslFile outDoc (write_index (keep_first refids))),
      (keep_first refids).
    split; [by eapply model_run|].
    split; [apply lookup_insert_eq|].
    split; [|split; [done|split; [apply NoDup_keep_first|apply elem_of_keep_first]]].
    apply parse_index_write; [|done].
    destruct (fromstring_index _ _ _ Hparse) as [_ Hindex].
    pose proof (parse_index_plain _ _ Hindex) as Hall.
    rewrite Forall_forall in *. intros v Hv. apply Hall.
    by apply elem_of_keep_first. }
  split; [done|].
  destruct (Hgeneral sample_xsl scenario_world "index.xml" "dedup_index.xsl"
              "index.xml" scenario_input ["A"; "A"; "B"])
    as (w' & kept & Hrun & Hfile & Hread & -> & _); try done.
  exists w'. by repeat split.
Qed.

(** C6.  Run on an index with the stylesheet that keeps the first
    [compound] of every [refid], the script leaves an output on which a
    second run with the same stylesheet changes nothing: the second run
    returns, and every file holds the text it held after the first. *)
Theorem second_run_changes_nothing xsl w inDoc xslFile outDoc text refids w1 :
  parse_index xsl = None →
  files w !! inDoc = Some text →
  fromstring xsl text = inr (Index refids) →
  files w !! xslFile = Some xsl →
  outDoc ≠ xslFile →
  xsl_transform (L := lxml xsl) inDoc xslFile outDoc w = (inr tt, w1) →
  ∃ w2,
    xsl_transform (L := lxml xsl) outDoc xslFile outDoc w1 = (inr tt, w2) ∧
    files w2 = files w1 ∧
    files w2 !! outDoc = Some (write_index (keep_first refids) +:+ newline).
Proof.
  intros Hnoindex Hin Hparse Hxsl Hne Hrun.
  pose proof Hrun as Hout.
  apply (xsl_transform_inr (L := lxml xsl)) in Hout
    as (_ & _ & _ & _ & _ & _ & _ & _ & Hout & _).
  rewrite (model_run xsl w _ _ _ _ _ Hin Hparse Hxsl Hout) in Hrun.
  injection Hrun as <-.
  assert (Forall (λ v, plain v = true) (keep_first refids)) as Hplain.
  { destruct (fromstring_index _ _ _ Hparse) as [_ Hindex].
    pose proof (parse_index_plain _ _ Hindex) as Hall.
    rewrite Forall_forall in *. intros v Hv. apply Hall.
    by apply elem_of_keep_first. }
  eexists. split.
  - apply (model_run xsl _ outDoc xslFile outDoc
             (write_index (keep_first refids) +:+ newline) (keep_first refids)).
    + apply lookup_insert_eq.
    + by apply fromstring_written.
    + cbn. by rewrite lookup_insert_ne.
    + done.
  - rewrite keep_first_idemp. cbn.
    split; [apply insert_insert_eq|apply lookup_insert_eq].
Qed.

End ModelClaims.

(** ** The properties on the scenario *)

Section Scenario.
Import DedupIndex.

(** C1 as stated fails: the call returns on the scenario, and the file it
    leaves is not the string of the transform result but that string and
    a line end. *)
Lemma file_is_not_the_serialized_result :
  ∃ w' result s,
    xsl_transform (L := lxml sample_xsl)
      "index.xml" "dedup_index.xsl" "out.xml" scenario_world = (inr tt, w') ∧
    apply_stylesheet (L := lxml sample_xsl) scenario_input sample_xsl = inr result ∧
    result_str (Lxml := lxml sample_xsl) result = inr s ∧
    files w' !! "out.xml" = Some (s +:+ newline) ∧
    files w' !! "out.xml" ≠ Some s.
Proof.
  exists (xsl_transform (L := lxml sample_xsl)
            "index.xml" "dedup_index.xsl" "out.xml" scenario_world).2,
    (Index ["A"; "B"]), scenario_output.
  repeat split; try (vm_compute; reflexivity).
  intros Heq. vm_compute in Heq. discriminate Heq.
Qed.

(** The scenario, written to a second path: the file is the index with
    [A] and [B] and a line end. *)
Lemma scenario_writes_result_line :
  ∃ w',
    xsl_transform (L := lxml sample_xsl)
      "index.xml" "dedup_index.xsl" "out.xml" scenario_world = (inr tt, w') ∧
    files w' !! "out.xml" = Some (scenario_output +:+ newline).
Proof.
  refine (proj2 (xsl_transform_writes_result_line (L := lxml sample_xsl)
            scenario_world "index.xml" "dedup_index.xsl" "out.xml"
            scenario_input sample_xsl (Index ["A"; "B"]) _ _ _)
            scenario_output _ _).
  - reflexivity.
  - reflexivity.
  - reflexivity.
  - reflexivity.
  - apply not_elem_of_empty.
Defined.

(** The file the scenario leaves ends in the line end of [print]. *)
Lemma scenario_file_ends_in_newline :
  ∃ text xtext (result : XSLTResultTree (Lxml := lxml sample_xsl)) s content,
    files scenario_world !! "index.xml" = Some text ∧
    files scenario_world !! "dedup_index.xsl" = Some xtext ∧
    apply_stylesheet (L := lxml sample_xsl) text xtext = inr result ∧
    result_str result = inr s ∧
    files (xsl_transform (L := lxml sample_xsl)
             "index.xml" "dedup_index.xsl" "out.xml" scenario_world).2
      !! "out.xml" = Some content ∧
    content = s +:+ newline ∧
    String.length content = S (String.length s) ∧
    String.get (String.length s) content = Some "010"%char.
Proof.
  apply (print_appends_one_newline (L := lxml sample_xsl)
           scenario_world "index.xml" "dedup_index.xsl" "out.xml" tt).
  vm_compute. reflexivity.
Defined.

(** An index whose root is never closed: the run raises and every file
    is as it was. *)
Lemma malformed_input_leaves_files :
  ∃ e w' t,
    xsl_transform (L := lxml sample_xsl)
      "index.xml" "dedup_index.xsl" "out.xml" malformed_world = (inl e, w') ∧
    files w' = files malformed_world ∧
    trace w' = trace malformed_world ++ t ∧
    (EvOpen "out.xml" ∉ t) ∧ (EvPrintTo "out.xml" ∉ t).
Proof.
  apply (malformed_document_leaves_output_untouched (L := lxml sample_xsl)).
  left. exists "<index>", (XMLSyntaxError "<index>"). split; reflexivity.
Defined.

(** The syntax error of the broken index is the error of the driver. *)
Lemma broken_index_error_reaches_caller :
  doxy_deduplicate_index (L := lxml sample_xsl) "build" "doc" broken_build_world =
  (inl (XMLSyntaxError "<index>"),
   aborted broken_build_world (index_xml "build") (stylesheet_path "doc")
     (index_xml "build") 1).
Proof.
  apply (proj1 (proj2 (errors_propagate_unmodified (L := lxml sample_xsl)
           broken_build_world (index_xml "build") (stylesheet_path "doc")
           (index_xml "build") (XMLSyntaxError "<index>")
           (aborted broken_build_world (index_xml "build") (stylesheet_path "doc")
              (index_xml "build") 1))) "build" "doc").
  vm_compute. reflexivity.
Defined.

(** The driver on the files of a build. *)
Lemma build_run_follows_control_flow :
  ∃ t,
    trace (doxy_deduplicate_index (L := lxml sample_xsl) "build" "doc" build_world).2 =
      trace build_world ++ t ∧
    t `prefix_of` control_flow (index_xml "build") (stylesheet_path "doc")
                    (index_xml "build") notice ∧
    ((inr tt : exn + unit) = inr tt ↔
     t = control_flow (index_xml "build") (stylesheet_path "doc")
           (index_xml "build") notice) ∧
    (EvPrint notice ∈ t →
     (inr tt : exn + unit) = inr tt ∧
     ∃ s, files (doxy_deduplicate_index (L := lxml sample_xsl)
                   "build" "doc" build_world).2 !! index_xml "build" =
          Some (s +:+ newline)).
Proof.
  apply (control_flow_is_linear (L := lxml sample_xsl) "build" "doc" build_world).
  vm_compute. reflexivity.
Defined.

(** The driver on the files of a build prints its line. *)
Lemma build_run_prints_notice :
  stdout (doxy_deduplicate_index (L := lxml sample_xsl) "build" "doc" build_world).2 =
  stdout build_world +:+ notice +:+ newline.
Proof.
  refine (proj1 (proj1 (driver_prints_fixed_notice (L := lxml sample_xsl)
            "build" "doc" build_world (inr tt)
            (doxy_deduplicate_index (L := lxml sample_xsl) "build" "doc" build_world).2
            _) eq_refl)).
  vm_compute. reflexivity.
Defined.

(** The driver on the files of a build replaces the index it read. *)
Lemma build_run_overwrites_index :
  ∃ text xtext (result : XSLTResultTree (Lxml := lxml sample_xsl)) s,
    files build_world !! index_xml "build" = Some text ∧
    files build_world !! stylesheet_path "doc" = Some xtext ∧
    apply_stylesheet (L := lxml sample_xsl) text xtext = inr result ∧
    result_str result = inr s ∧
    files (doxy_deduplicate_index (L := lxml sample_xsl) "build" "doc" build_world).2 =
      <[index_xml "build" := s +:+ newline]> (files build_world) ∧
    dom (files (doxy_deduplicate_index (L := lxml sample_xsl)
                  "build" "doc" build_world).2) = dom (files build_world) ∧
    (∀ p, p ≠ index_xml "build" →
          files (doxy_deduplicate_index (L := lxml sample_xsl)
                   "build" "doc" build_world).2 !! p = files build_world !! p) ∧
    trace (doxy_deduplicate_index (L := lxml sample_xsl) "build" "doc" build_world).2 =
      trace build_world ++
      control_flow (index_xml "build") (stylesheet_path "doc") (index_xml "build") notice.
Proof.
  apply (driver_overwrites_its_input (L := lxml sample_xsl) "build" "doc" build_world).
  vm_compute. reflexivity.
Defined.

(** Two worlds that agree on the two files and on little else. *)
Lemma same_texts_same_output :
  (∀ u1 u2 w1' w2',
     xsl_transform (L := lxml sample_xsl)
       "index.xml" "dedup_index.xsl" "out.xml" scenario_world = (inr u1, w1') →
     xsl_transform (L := lxml sample_xsl)
       "index.xml" "dedup_index.xsl" "out.xml" other_world = (inr u2, w2') →
     files w1' !! "out.xml" = files w2' !! "out.xml") ∧
  (("out.xml" ∈ unwritable scenario_world ↔ "out.xml" ∈ unwritable other_world) →
   (xsl_transform (L := lxml sample_xsl)
      "index.xml" "dedup_index.xsl" "out.xml" scenario_world).1 =
   (xsl_transform (L := lxml sample_xsl)
      "index.xml" "dedup_index.xsl" "out.xml" other_world).1).
Proof.
  apply (xsl_transform_deterministic (L := lxml sample_xsl)
           scenario_world other_world "index.xml" "dedup_index.xsl" "out.xml").
  - reflexivity.
  - reflexivity.
Defined.

(** The scenario keeps one [compound] for [A] and one for [B]. *)
Lemma scenario_keeps_A_and_B :
  ∃ w' kept,
    xsl_transform (L := lxml sample_xsl)
      "index.xml" "dedup_index.xsl" "out.xml" scenario_world = (inr tt, w') ∧
    files w' !! "out.xml" = Some (write_index kept +:+ newline) ∧
    parse_index (write_index kept +:+ newline) = Some kept ∧
    kept = keep_first ["A"; "A"; "B"] ∧
    NoDup kept ∧
    (∀ refid, refid ∈ kept ↔ refid ∈ ["A"; "A"; "B"]).
Proof.
  apply (proj1 stylesheet_keeps_each_refid_once sample_xsl scenario_world
           "index.xml" "dedup_index.xsl" "out.xml" scenario_input).
  - reflexivity.
  - reflexivity.
  - reflexivity.
  - apply not_elem_of_empty.
Defined.

(** The scenario, run twice in place. *)
Lemma scenario_second_run_changes_nothing :
  ∃ w2,
    xsl_transform (L := lxml sample_xsl) "index.xml" "dedup_index.xsl" "index.xml"
      (xsl_transform (L := lxml sample_xsl)
         "index.xml" "dedup_index.xsl" "index.xml" scenario_world).2 = (inr tt, w2) ∧
    files w2 =
      files (xsl_transform (L := lxml sample_xsl)
               "index.xml" "dedup_index.xsl" "index.xml" scenario_world).2 ∧
    files w2 !! "index.xml" = Some (scenario_output +:+ newline).
Proof.
  apply (second_run_changes_nothing sample_xsl scenario_world
           "index.xml" "dedup_index.xsl" "index.xml" scenario_input ["A"; "A"; "B"]).
  - reflexivity.
  - reflexivity.
  - reflexivity.
  - reflexivity.
  - discriminate.
  - vm_compute. reflexivity.
Defined.

End Scenario.

(** * Further properties of the script *)

Section Failures.
Context {L : Lxml}.
Implicit Types (w : World) (inDoc xslFile outDoc : string).

(** [open(outDoc, 'w')] comes before [print] turns the result into a
    string: when that raises, the run raises the same exception and the
    output file, already truncated, is left empty; nothing else changes,
    and all six calls were made. *)
Theorem failed_print_leaves_empty_file w inDoc xslFile outDoc text xtext result e :
  files w !! inDoc = Some text →
  files w !! xslFile = Some xtext →
  apply_stylesheet text xtext = inr result →
  outDoc ∉ unwritable w →
  result_str result = inl e →
  ∃ w',
    xsl_transform inDoc xslFile outDoc w = (inl e, w') ∧
    files w' = <[outDoc := EmptyString]> (files w) ∧
    trace w' = trace w ++ calls inDoc xslFile outDoc.
Proof.
  intros Hin Hxsl Happly Hout Hstr.
  exists (aborted w inDoc xslFile outDoc 6). split.
  - apply xsl_transform_raises. by eapply raised_str.
  - done.
Qed.

(** The driver works in place, so a result that has no string costs the
    index: the driver raises, prints nothing, and the index it has just
    read is an empty file; the other files are as they were. *)
Theorem driver_failed_print_loses_index D P w text xtext result e :
  files w !! index_xml D = Some text →
  files w !! stylesheet_path P = Some xtext →
  apply_stylesheet text xtext = inr result →
  index_xml D ∉ unwritable w →
  result_str result = inl e →
  ∃ w',
    doxy_deduplicate_index D P w = (inl e, w') ∧
    files w' !! index_xml D = Some EmptyString ∧
    stdout w' = stdout w ∧
    (∀ p, p ≠ index_xml D → files w' !! p = files w !! p).
Proof.
  intros Hin Hxsl Happly Hout Hstr.
  exists (aborted w (index_xml D) (stylesheet_path P) (index_xml D) 6).
  rewrite doxy_deduplicate_index_run.
  rewrite (xsl_transform_raises w _ _ _ 6 e) by by eapply raised_str.
  cbn. repeat split.
  - apply lookup_insert_eq.
  - intros p Hp. by apply lookup_insert_ne.
Qed.


(** With an output path that cannot be written the run never returns and
    changes no file; and the path is only tried after the transform has
    run: when both documents parse and the stylesheet applies, the
    exception is the [OSError] of the output path. *)
Theorem unwritable_output_never_returns w inDoc xslFile outDoc r w' :
  outDoc ∈ unwritable w →
  xsl_transform inDoc xslFile outDoc w = (r, w') →
  (∃ e, r = inl e) ∧
  files w' = files w ∧
  (∀ text xtext result,
     files w !! inDoc = Some text → files w !! xslFile = Some xtext →
     apply_stylesheet text xtext = inr result →
     r = inl (OSError outDoc) ∧ EvTransform ∈ trace w').
Proof.
  intros Hlocked Hrun. destruct r as [e|u].
  - split; [by exists e|]. split.
    + apply xsl_transform_inl in Hrun as (n & Hr & ->).
      unfold aborted. cbn [files].
      destruct (decide (n = 6)) as [Hn|Hn]; [|done].
      subst n. inversion Hr. done.
    + intros text xtext result Hin Hxsl Happly.
      rewrite (xsl_transform_raises w _ _ _ 5 (OSError outDoc)) in Hrun
        by by eapply raised_open.
      injection Hrun as <- <-. split; [done|].
      cbn. rewrite elem_of_app, !elem_of_cons. tauto.
  - apply xsl_transform_inr in Hrun
      as (text & xtext & result & s & _ & _ & _ & _ & Hout & _).
    done.
Qed.

(** Run again on the world it left, with an output path that is neither
    of the two paths read, the script returns again and every file keeps
    the text the first run gave it. *)
Theorem rerun_gives_same_files w inDoc xslFile outDoc u w1 :
  outDoc ≠ inDoc → outDoc ≠ xslFile →
  xsl_transform inDoc xslFile outDoc w = (inr u, w1) →
  ∃ w2,
    xsl_transform inDoc xslFile outDoc w1 = (inr tt, w2) ∧
    files w2 = files w1.
Proof.
  intros Hne_in Hne_xsl Hrun.
  apply xsl_transform_inr in Hrun
    as (text & xtext & result & s & Hin & Hxsl & Happly & Hstr & Hout & ->).
  eexists. split.
  - apply (xsl_transform_returns _ inDoc xslFile outDoc text xtext result s);
      cbn; try done; by rewrite lookup_insert_ne.
  - cbn. apply insert_insert_eq.
Qed.

(** The input comes first: when the index is missing or does not parse,
    the run raises on it and stops there, whatever the state of the
    stylesheet and of the output path: [ET.parse(inDoc)] is the only call
    made, no file changes, and a missing index is an [OSError] that names
    its path. *)
Theorem input_failure_comes_first w inDoc xslFile outDoc :
  files w !! inDoc = None ∨ malformed w inDoc →
  ∃ e,
    xsl_transform inDoc xslFile outDoc w =
      (inl e, mkWorld (files w) (unwritable w) (stdout w)
                (trace w ++ [EvParse inDoc])) ∧
    (files w !! inDoc = None → e = OSError inDoc) ∧
    (∀ text e', files w !! inDoc = Some text →
                etree_fromstring text = inl e' → e = e').
Proof.
  intros [Hin|(text & e & Hin & Hdoc)].
  - exists (OSError inDoc). split; [|split; [done|congruence]].
    by rewrite (xsl_transform_raises w _ _ _ 1 (OSError inDoc))
      by by apply raised_read_input.
  - exists e. split; [|split; [congruence|]].
    + by rewrite (xsl_transform_raises w _ _ _ 1 e)
        by by eapply raised_parse_input.
    + intros text' e' Hin' Hdoc'. congruence.
Qed.

End Failures.

Section DriverPaths.
Context {L : Lxml}.

Lemma list_ascii_of_string_app (s t : string) :
  String.list_ascii_of_string (s +:+ t) =
  String.list_ascii_of_string s ++ String.list_ascii_of_string t.
Proof.
  induction s as [|c s IH]; [reflexivity|].
  rewrite append_cons. simpl. by rewrite IH.
Qed.

(** The index path ends in [.xml] and the stylesheet path in [.xsl]:
    whatever is substituted, they are two paths. *)
Lemma index_xml_ne_stylesheet_path (D P : string) : index_xml D ≠ stylesheet_path P.
Proof.
  unfold index_xml, stylesheet_path. intros Heq.
  apply (f_equal (λ s, reverse (String.list_ascii_of_string s))) in Heq.
  cbn beta in Heq. rewrite !list_ascii_of_string_app, !reverse_app in Heq.
  set (a := reverse (String.list_ascii_of_string "/xml/index.xml")) in Heq.
  set (b := reverse (String.list_ascii_of_string
                       "/thirdparty/doxygen/dedup_index.xsl")) in Heq.
  vm_compute in a, b. subst a b. simpl in Heq. discriminate Heq.
Qed.

(** The driver never writes to its stylesheet: after every run, returning
    or raising, the stylesheet file holds the text it held before. *)
Theorem driver_never_changes_stylesheet D P w :
  files (doxy_deduplicate_index D P w).2 !! stylesheet_path P =
  files w !! stylesheet_path P.
Proof.
  pose proof (index_xml_ne_stylesheet_path D P) as Hne.
  rewrite doxy_deduplicate_index_run.
  destruct (xsl_transform _ _ _ w) as [[e|[]] w1] eqn:Hx.
  - apply xsl_transform_inl in Hx as (n & _ & ->). cbn.
    destruct (decide (n = 6)); [by rewrite lookup_insert_ne|done].
  - apply xsl_transform_inr in Hx
      as (text & xtext & result & s & _ & _ & _ & _ & _ & ->).
    cbn. by rewrite lookup_insert_ne.
Qed.

End DriverPaths.

(** ** The further properties on concrete worlds *)

Section FurtherScenarios.
Import DedupIndex.

(** The scenario with a library whose results have no string. *)
Lemma scenario_without_string_leaves_empty_file :
  ∃ w',
    xsl_transform (L := unprintable (lxml sample_xsl))
      "index.xml" "dedup_index.xsl" "out.xml" scenario_world =
      (inl (XSLTSaveError "cannot save result"), w') ∧
    files w' = <["out.xml" := EmptyString]> (files scenario_world) ∧
    trace w' = trace scenario_world ++ calls "index.xml" "dedup_index.xsl" "out.xml".
Proof.
  apply (failed_print_leaves_empty_file (L := unprintable (lxml sample_xsl))
           scenario_world "index.xml" "dedup_index.xsl" "out.xml"
           scenario_input sample_xsl (Index ["A"; "B"])).
  - reflexivity.
  - reflexivity.
  - reflexivity.
  - apply not_elem_of_empty.
  - reflexivity.
Defined.

(** The driver on the files of a build, with such a library. *)
Lemma build_run_without_string_loses_index :
  ∃ w',
    doxy_deduplicate_index (L := unprintable (lxml sample_xsl)) "build" "doc" build_world =
      (inl (XSLTSaveError "cannot save result"), w') ∧
    files w' !! index_xml "build" = Some EmptyString ∧
    stdout w' = stdout build_world ∧
    (∀ p, p ≠ index_xml "build" → files w' !! p = files build_world !! p).
Proof.
  apply (driver_failed_print_loses_index (L := unprintable (lxml sample_xsl))
           "build" "doc" build_world scenario_input sample_xsl (Index ["A"; "B"])).
  - reflexivity.
  - reflexivity.
  - reflexivity.
  - apply not_elem_of_empty.
  - reflexivity.
Defined.


(** The scenario with an output path that cannot be written. *)
Lemma locked_run_never_returns :
  (∃ e, (xsl_transform (L := lxml sample_xsl)
           "index.xml" "dedup_index.xsl" "out.xml" locked_world).1 = inl e) ∧
  files (xsl_transform (L := lxml sample_xsl)
           "index.xml" "dedup_index.xsl" "out.xml" locked_world).2 =
    files locked_world ∧
  (∀ text xtext (result : XSLTResultTree (Lxml := lxml sample_xsl)),
     files locked_world !! "index.xml" = Some text →
     files locked_world !! "dedup_index.xsl" = Some xtext →
     apply_stylesheet (L := lxml sample_xsl) text xtext = inr result →
     (xsl_transform (L := lxml sample_xsl)
        "index.xml" "dedup_index.xsl" "out.xml" locked_world).1 =
       inl (OSError "out.xml") ∧
     EvTransform ∈
       trace (xsl_transform (L := lxml sample_xsl)
                "index.xml" "dedup_index.xsl" "out.xml" locked_world).2).
Proof.
  apply (unwritable_output_never_returns (L := lxml sample_xsl)
           locked_world "index.xml" "dedup_index.xsl" "out.xml").
  - vm_compute. reflexivity.
  - apply surjective_pairing.
Defined.

(** The scenario, run twice to a second path. *)
Lemma scenario_rerun_gives_same_files :
  ∃ w2,
    xsl_transform (L := lxml sample_xsl) "index.xml" "dedup_index.xsl" "out.xml"
      (xsl_transform (L := lxml sample_xsl)
         "index.xml" "dedup_index.xsl" "out.xml" scenario_world).2 = (inr tt, w2) ∧
    files w2 =
      files (xsl_transform (L := lxml sample_xsl)
               "index.xml" "dedup_index.xsl" "out.xml" scenario_world).2.
Proof.
  apply (rerun_gives_same_files (L := lxml sample_xsl)
           scenario_world "index.xml" "dedup_index.xsl" "out.xml" tt).
  - discriminate.
  - discriminate.
  - vm_compute. reflexivity.
Defined.

(** With nothing in place, the missing index is what the run reports. *)
Lemma bare_run_reports_missing_index :
  ∃ e,
    xsl_transform (L := lxml sample_xsl)
      "index.xml" "dedup_index.xsl" "out.xml" bare_world =
      (inl e, mkWorld (files bare_world) (unwritable bare_world) (stdout bare_world)
                (trace bare_world ++ [EvParse "index.xml"])) ∧
    (files bare_world !! "index.xml" = None → e = OSError "index.xml") ∧
    (∀ text e', files bare_world !! "index.xml" = Some text →
                etree_fromstring (Lxml := lxml sample_xsl) text = inl e' → e = e').
Proof.
  apply (input_failure_comes_first (L := lxml sample_xsl)
           bare_world "index.xml" "dedup_index.xsl" "out.xml").
  left. reflexivity.
Defined.

End FurtherScenarios.
